(** * The execution engine of hiero_sdk_python: bounded retry, backoff, failover

    A shallow embedding of [src/hiero_sdk_python/executable.py] together with
    the request builders of [TopicUpdateTransaction] and
    [TokenUnfreezeTransaction].

    Python integers are unbounded, so every [int] is a [Z].  The engine is
    synchronous and single-threaded: one call of [_execute] is a function of
    the operation, of the client context and of the network it talks to.  The
    network is an oracle giving the outcome of the k-th call made on a stub;
    the calls and the blocking waits the engine performs are recorded, in
    order, in a trace (the test-suite observes the waits the same way, through
    the recorded calls of a patched [time.sleep]).  A wait of negative length
    is not made: [time.sleep] raises [ValueError] for it, which the engine
    does not catch. *)

From Stdlib Require Import ZArith List String Bool Arith Lia.
Import ListNotations.

Set Implicit Arguments.

(** ** Data *)

(** [AccountId(shard, realm, num)]: the identity of a node. *)
Record AccountId : Type := mkAccountId
  { shard : Z; realm : Z; num : Z }.

(** Default values for retry and backoff configuration, in milliseconds. *)
Definition DEFAULT_MAX_BACKOFF : Z := 8000.
Definition DEFAULT_MIN_BACKOFF : Z := 250.
Definition DEFAULT_GRPC_DEADLINE : Z := 10000.

(** [class _ExecutionState(IntEnum)]. *)
Inductive _ExecutionState : Type :=
| RETRY      (* = 0, the transaction should be retried *)
| FINISHED   (* = 1, the transaction completed successfully *)
| ERROR      (* = 2, the transaction failed with an error *)
| EXPIRED.   (* = 3, the transaction expired before being processed *)

(** A gRPC stub method: the remote procedure [rpc] on the connection to
    [target].  The callables stored in a [_Method] are such handles. *)
Record Stub : Type := mkStub
  { target : AccountId; rpc : string }.

(** What the engine does to the outside, in order. *)
Inductive Event : Type :=
| Dispatch (stub : Stub)      (* one network round trip *)
| Sleep (milliseconds : Z).   (* one blocking wait of [_delay_for_attempt] *)

Definition is_dispatch (e : Event) : bool :=
  match e with Dispatch _ => true | Sleep _ => false end.

(** Number of round trips recorded in a trace. *)
Definition dispatches (t : list Event) : nat :=
  List.length (filter is_dispatch t).

(** The waits recorded in a trace, in order. *)
Fixpoint sleeps (t : list Event) : list Z :=
  match t with
  | [] => []
  | Sleep d :: t' => d :: sleeps t'
  | Dispatch _ :: t' => sleeps t'
  end.

(** The stubs called in a trace, in order. *)
Fixpoint called (t : list Event) : list Stub :=
  match t with
  | [] => []
  | Dispatch s :: t' => s :: called t'
  | Sleep _ :: t' => called t'
  end.

(** [class _Method]: a pair of optional callables. *)
Record _Method : Type := mk_Method
  { query : option Stub; transaction : option Stub }.

(** Modelled from the spec: the channel adapter ([hiero_sdk_python.channels],
    not among the sources) wraps the live connection to one node and exposes
    named remote-procedure handles grouped by service area; pure lookup. *)
Record _Channel : Type := mk_Channel
  { connection : AccountId }.

Definition topic_updateTopic (channel : _Channel) : Stub :=
  {| target := connection channel; rpc := "topic.updateTopic" |}.

(** Modelled from the spec: the client context ([hiero_sdk_python.client],
    not among the sources) supplies the attempt budget, the ordered list of
    node identities, the current node, whose connection is the channel the
    engine acquires, and a mutator that switches the active node. *)
Record Client : Type := mkClient
  { max_attempts : Z;
    node_account_id : AccountId;
    node_account_ids : list AccountId }.

(** [client.channel]: the connection to the current node. *)
Definition channel (client : Client) : AccountId :=
  node_account_id client.

Definition get_node_account_ids (client : Client) : list AccountId :=
  node_account_ids client.

Definition _switch_node (client : Client) (node : AccountId) : Client :=
  {| max_attempts := max_attempts client;
     node_account_id := node;
     node_account_ids := node_account_ids client |}.

Section Engine.

(** The wire request, the raw response, the error object a response maps
    to and the mapped result are opaque to the engine. *)
Context {Request Response StatusError Result : Type}.

(** A call on a stub returns a response or raises [grpc.RpcError]. *)
Inductive Outcome : Type :=
| RpcError (code details : string)
| Reply (response : Response).

(** The network: outcome of the k-th round trip of the execution, which may
    depend on the stub called and on the request sent. *)
Definition Network : Type := nat -> Stub -> Request -> Outcome.

Record World : Type := mkWorld
  { net : Network; trace : list Event }.

Definition record (e : Event) (w : World) : World :=
  {| net := net w; trace := trace w ++ [e] |}.

(** Calling a stub: one round trip. *)
Definition call (stub : Stub) (proto_request : Request) (w : World)
  : Outcome * World :=
  (net w (dispatches (trace w)) stub proto_request, record (Dispatch stub) w).

(** [err_persistant]: a mapped status error, or the text built from a
    transport error. *)
Definition LastError : Type := (StatusError + string)%type.

(** The exceptions that leave the engine. *)
Inductive Raised : Type :=
| MaxAttemptsError (message : string) (node_id : AccountId)
                   (last_error : option LastError)
| StatusRaised (status_error : StatusError)  (* [raise status_error] *)
| ValueError (message : string)              (* from the request builder *)
| Exception (message : string)
| ZeroDivisionError
| GrpcRpcError (code details : string).

(** [class _Executable(ABC)]: the configuration, and the abstract methods a
    subclass provides. *)
Record _Executable : Type := mk_Executable
  { _max_backoff : Z;
    _min_backoff : Z;
    _grpc_deadline : Z;
    _should_retry : Response -> _ExecutionState;
    _map_status_error : Response -> StatusError;
    (* reads [self.node_account_id], set by the engine before each build *)
    _make_request : option AccountId -> Raised + Request;
    _get_method : _Channel -> _Method;
    _map_response : Response -> AccountId -> Request -> Result }.

(** [_execute_method(method, proto_request)]. *)
Definition _execute_method (method : _Method) (proto_request : Request)
           (w : World) : (Raised + Response) * World :=
  let run (stub : Stub) :=
    match call stub proto_request w with
    | (Reply response, w') => (inr response, w')
    | (RpcError code details, w') => (inl (GrpcRpcError code details), w')
    end in
  match transaction method with
  | Some f => run f
  | None =>
      match query method with
      | Some f => run f
      | None => (inl (Exception "No method to execute"), w)
      end
  end.

(** [_delay_for_attempt(current_backoff)]: [time.sleep(current_backoff * 0.001)].
    [time.sleep] raises [ValueError] for a negative length, and nothing is
    waited then; otherwise the wait is made. *)
Definition _delay_for_attempt (current_backoff : Z) (w : World)
  : Raised + World :=
  if (current_backoff <? 0)%Z
  then inl (ValueError "sleep length must be non-negative")
  else inr (record (Sleep current_backoff) w).

(** The variables of [_execute] that live across iterations. *)
Record Frame : Type := mkFrame
  { client : Client;
    self_node_account_id : option AccountId;
    current_backoff : Z;
    err_persistant : option LastError;
    world : World }.

(** How one iteration of the [for] loop ends. *)
Inductive Step : Type :=
| Continue (s : Frame)
| Return (result : Result) (s : Frame)
| Raise (e : Raised) (s : Frame).

(** [if attempt > 0 and current_backoff < self._max_backoff: current_backoff *= 2] *)
Definition next_backoff (self : _Executable) (attempt : nat) (backoff : Z) : Z :=
  if (0 <? attempt)%nat && (backoff <? _max_backoff self)%Z
  then (backoff * 2)%Z else backoff.

(** [f"Status: {e.code()}, Details: {e.details()}"] *)
Definition rpc_error_text (code details : string) : string :=
  ("Status: " ++ code ++ ", Details: " ++ details)%string.

(** The body of the [for attempt in range(max_attempts)] loop. *)
Definition attempt_body (self : _Executable) (attempt : nat) (s : Frame) : Step :=
  let backoff := next_backoff self attempt (current_backoff s) in
  let channel := mk_Channel (channel (client s)) in
  let self_node := Some (node_account_id (client s)) in
  let method := _get_method self channel in
  let s1 := {| client := client s;
               self_node_account_id := self_node;
               current_backoff := backoff;
               err_persistant := err_persistant s;
               world := world s |} in
  match _make_request self self_node with
  | inl e => Raise e s1
  | inr proto_request =>
      match _execute_method method proto_request (world s) with
      | (inr response, w) =>
          let status_error := _map_status_error self response in
          match _should_retry self response with
          | RETRY =>
              (* [err_persistant] is assigned before the wait; an exception
                 of the wait is not a [grpc.RpcError] and is not caught *)
              match _delay_for_attempt backoff w with
              | inr w' =>
                  Continue {| client := client s;
                              self_node_account_id := self_node;
                              current_backoff := backoff;
                              err_persistant := Some (inl status_error);
                              world := w' |}
              | inl e =>
                  Raise e {| client := client s;
                             self_node_account_id := self_node;
                             current_backoff := backoff;
                             err_persistant := Some (inl status_error);
                             world := w |}
              end
          | EXPIRED =>
              Raise (StatusRaised status_error)
                    {| client := client s;
                       self_node_account_id := self_node;
                       current_backoff := backoff;
                       err_persistant := err_persistant s;
                       world := w |}
          | ERROR =>
              Raise (StatusRaised status_error)
                    {| client := client s;
                       self_node_account_id := self_node;
                       current_backoff := backoff;
                       err_persistant := err_persistant s;
                       world := w |}
          | FINISHED =>
              Return (_map_response self response
                                    (node_account_id (client s)) proto_request)
                     {| client := client s;
                        self_node_account_id := self_node;
                        current_backoff := backoff;
                        err_persistant := err_persistant s;
                        world := w |}
          end
      | (inl (GrpcRpcError code details), w) =>
          (* except grpc.RpcError as e *)
          let err := Some (inr (rpc_error_text code details)) in
          let ids := get_node_account_ids (client s) in
          match ids with
          | [] =>
              (* the modulo by [len(node_account_ids)] *)
              Raise ZeroDivisionError
                    {| client := client s;
                       self_node_account_id := self_node;
                       current_backoff := backoff;
                       err_persistant := err;
                       world := w |}
          | first :: _ =>
              let node_index := ((attempt + 1) mod List.length ids)%nat in
              let current_node_account_id := nth node_index ids first in
              Continue {| client := _switch_node (client s) current_node_account_id;
                          self_node_account_id := self_node;
                          current_backoff := backoff;
                          err_persistant := err;
                          world := w |}
          end
      | (inl e, w) =>
          (* any other exception is not caught *)
          Raise e {| client := client s;
                     self_node_account_id := self_node;
                     current_backoff := backoff;
                     err_persistant := err_persistant s;
                     world := w |}
      end
  end.

(** The [for] loop over the remaining attempt numbers, and the statement
    after it. *)
Fixpoint loop (self : _Executable) (attempts : list nat) (s : Frame)
  : (Raised + Result) * Frame :=
  match attempts with
  | [] =>
      (inl (MaxAttemptsError "Exceeded maximum attempts for request"
                             (node_account_id (client s)) (err_persistant s)),
       s)
  | attempt :: rest =>
      match attempt_body self attempt s with
      | Continue s' => loop self rest s'
      | Return result s' => (inr result, s')
      | Raise e s' => (inl e, s')
      end
  end.

(** [range(max_attempts)]. *)
Definition range (n : Z) : list nat := seq 0 (Z.to_nat n).

(** [_Executable._execute(self, client)], run against the world [w];
    [node] is [self.node_account_id] on entry. *)
Definition _execute (self : _Executable) (node : option AccountId)
           (c : Client) (w : World) : (Raised + Result) * Frame :=
  loop self (range (max_attempts c))
       {| client := c;
          self_node_account_id := node;
          current_backoff := _min_backoff self;
          err_persistant := None;
          world := w |}.

End Engine.

(** ** Request builders *)

Record TopicId : Type := mkTopicId
  { topic_shard : Z; topic_realm : Z; topic_num : Z }.

Record TokenId : Type := mkTokenId
  { token_shard : Z; token_realm : Z; token_num : Z }.

Record Duration : Type := mkDuration { seconds : Z }.

Record Timestamp : Type := mkTimestamp
  { timestamp_seconds : Z; timestamp_nanos : Z }.

(** A public key, by its encoding. *)
Definition Key : Type := string.

(** [ConsensusUpdateTopicTransactionBody].  The bodies hold the values of
    the transaction as they are; the conversions to the wire types and their
    range checks belong to classes that are not among the sources and are
    not part of this model, which is used for the validation of the required
    fields. *)
Record ConsensusUpdateTopicTransactionBody : Type :=
  { topicID : TopicId;
    adminKey : option Key;
    submitKey : option Key;
    autoRenewPeriod : option Duration;
    autoRenewAccount : option AccountId;
    expirationTime : option Timestamp;
    memo_value : option string }.

(** [TokenUnfreezeAccountTransactionBody]. *)
Record TokenUnfreezeAccountTransactionBody : Type :=
  { account : AccountId; token : TokenId }.

(** The operation-specific part of a [TransactionBody]. *)
Inductive BodyData : Type :=
| consensusUpdateTopic (body : ConsensusUpdateTopicTransactionBody)
| tokenUnfreeze (body : TokenUnfreezeAccountTransactionBody).

Section Builders.

(** The part of the body common to all transactions; it is built by
    [Transaction.build_base_transaction_body], which is not among the
    sources and is taken as given: [inl message] when it raises. *)
Variable BaseBody : Type.
Variable build_base_transaction_body : string + BaseBody.

Record TransactionBody : Type := mkTransactionBody
  { base : BaseBody; data : BodyData }.

(** [raise ValueError(message)] is [inl message]. *)
Definition with_base (d : BodyData) : string + TransactionBody :=
  match build_base_transaction_body with
  | inl message => inl message
  | inr b => inr {| base := b; data := d |}
  end.

End Builders.

Module TopicUpdateTransaction.

Record t : Type := mk
  { topic_id : option TopicId;
    memo : string;
    admin_key : option Key;
    submit_key : option Key;
    auto_renew_period : option Duration;
    auto_renew_account : option AccountId;
    expiration_time : option Timestamp;
    transaction_fee : Z }.

(** [__init__] with every argument at its default. *)
Definition init : t :=
  {| topic_id := None; memo := ""; admin_key := None; submit_key := None;
     auto_renew_period := Some (mkDuration 7890000);
     auto_renew_account := None; expiration_time := None;
     transaction_fee := 10000000 |}.

Definition set_topic_id (self : t) (topic : option TopicId) : t :=
  {| topic_id := topic; memo := memo self; admin_key := admin_key self;
     submit_key := submit_key self;
     auto_renew_period := auto_renew_period self;
     auto_renew_account := auto_renew_account self;
     expiration_time := expiration_time self;
     transaction_fee := transaction_fee self |}.

(** [build_transaction_body]. *)
Definition build_transaction_body {BaseBody : Type}
           (build_base : string + BaseBody) (self : t)
  : string + TransactionBody BaseBody :=
  match topic_id self with
  | None => inl "Missing required fields: topic_id"%string
  | Some topic =>
      with_base build_base
        (consensusUpdateTopic
           {| topicID := topic;
              adminKey := admin_key self;
              submitKey := submit_key self;
              autoRenewPeriod :=
                option_map (fun d => mkDuration (seconds d)) (auto_renew_period self);
              autoRenewAccount := auto_renew_account self;
              expirationTime := expiration_time self;
              memo_value :=
                if String.eqb (memo self) "" then None else Some (memo self) |})
  end.

(** [_get_method]. *)
Definition _get_method (channel : _Channel) : _Method :=
  {| transaction := Some (topic_updateTopic channel); query := None |}.

End TopicUpdateTransaction.

Module TokenUnfreezeTransaction.

Record t : Type := mk
  { token_id : option TokenId;
    account_id : option AccountId;
    _default_transaction_fee : Z;
    _is_frozen : bool }.

(** [__init__(account_id=None, token_id=None)]. *)
Definition init (account : option AccountId) (tok : option TokenId) : t :=
  {| token_id := tok; account_id := account;
     _default_transaction_fee := 3000000000; _is_frozen := false |}.

(** [build_transaction_body]. *)
Definition build_transaction_body {BaseBody : Type}
           (build_base : string + BaseBody) (self : t)
  : string + TransactionBody BaseBody :=
  match token_id self with
  | None => inl "Missing required TokenID."%string
  | Some tok =>
      match account_id self with
      | None => inl "Missing required AccountID."%string
      | Some acc =>
          with_base build_base (tokenUnfreeze {| account := acc; token := tok |})
      end
  end.

End TokenUnfreezeTransaction.

(** ** Transactions as executables *)

(** The precheck codes the tests use; any other code by its number. *)
Inductive ResponseCode : Type :=
| OK
| BUSY
| TRANSACTION_EXPIRED
| INVALID_TRANSACTION_BODY
| OtherCode (number : Z).

(** [TransactionResponseProto]. *)
Record TransactionResponse : Type := mkTransactionResponse
  { nodeTransactionPrecheckCode : ResponseCode }.

(** The error a status maps to. *)
Inductive PrecheckError : Type :=
| mkPrecheckError (status : ResponseCode).

(** What a submitted transaction maps to: the node that took it. *)
Record Submitted : Type := mkSubmitted
  { submitted_to : AccountId; submitted_code : ResponseCode }.

Section TransactionExecutable.

Variable BaseBody : Type.

(** Modelled from the spec: the classifier of the Transaction base class
    (not among the sources) is the fixed table of section 4.3: busy gives
    RETRY, success gives FINISHED, the elapsed submission window gives
    EXPIRED, any other code gives ERROR. *)
Definition classify (response : TransactionResponse) : _ExecutionState :=
  match nodeTransactionPrecheckCode response with
  | BUSY => RETRY
  | OK => FINISHED
  | TRANSACTION_EXPIRED => EXPIRED
  | INVALID_TRANSACTION_BODY => ERROR
  | OtherCode _ => ERROR
  end.

(** Modelled from the spec: the Transaction base class (not among the
    sources) as the capability set the engine needs; the request builder
    produces the wire payload on demand from [build_transaction_body] and
    may raise a validation error if required fields are absent. *)
Definition transaction_executable
           (build : string + TransactionBody BaseBody)
           (get_method : _Channel -> _Method)
  : @_Executable (TransactionBody BaseBody) TransactionResponse
                 PrecheckError Submitted :=
  {| _max_backoff := DEFAULT_MAX_BACKOFF;
     _min_backoff := DEFAULT_MIN_BACKOFF;
     _grpc_deadline := DEFAULT_GRPC_DEADLINE;
     _should_retry := classify;
     _map_status_error :=
       fun response => mkPrecheckError (nodeTransactionPrecheckCode response);
     _make_request :=
       fun _ => match build with
                | inl message => inl (ValueError message)
                | inr body => inr body
                end;
     _get_method := get_method;
     _map_response :=
       fun response node _ =>
         mkSubmitted node (nodeTransactionPrecheckCode response) |}.

End TransactionExecutable.

(** ** Vocabulary of the statements *)

Section Vocabulary.

Context {Request Response StatusError Result : Type}.

Local Abbreviation Executable := (@_Executable Request Response StatusError Result).

(** The world at the start of an execution: nothing done yet. *)
Definition fresh (n : @Network Request Response) : World :=
  {| net := n; trace := [] |}.

(** The slot [_execute_method] calls: the transaction function when it is
    not [None], otherwise the query function. *)
Definition slot (method : _Method) : option Stub :=
  match transaction method with
  | Some f => Some f
  | None => query method
  end.

(** What a call that ended with outcome [o] gives to its caller. *)
Definition returned (o : @Outcome Response) : @Raised StatusError + Response :=
  match o with
  | Reply response => inr response
  | RpcError code details => inl (GrpcRpcError code details)
  end.

(** The invariant of a method handle: never both, never neither. *)
Definition exactly_one (method : _Method) : Prop :=
  (transaction method <> None /\ query method = None) \/
  (transaction method = None /\ query method <> None).


(** The request builds for every node, and every channel gives a handle
    with a populated slot. *)
Definition builds (self : Executable) : Prop :=
  forall node, exists proto_request, _make_request self node = inr proto_request.

Definition resolves (self : Executable) : Prop :=
  forall channel, exists stub, slot (_get_method self channel) = Some stub.

(** The waits of [n] consecutive iterations that all end in RETRY, the
    first being iteration [attempt] entered with [backoff]. *)
Fixpoint retry_delays (self : Executable) (attempt : nat) (backoff : Z) (n : nat)
  : list Z :=
  match n with
  | O => []
  | S n' =>
      let b := next_backoff self attempt backoff in
      b :: retry_delays self (S attempt) b n'
  end.


(** The frame an iteration works on once its prologue has run: the backoff
    stepped, [self.node_account_id] set to the client's node. *)
Definition entered (self : Executable) (attempt : nat)
           (s : @Frame Request Response StatusError)
           (w : @World Request Response)
           (err : option (@LastError StatusError))
  : @Frame Request Response StatusError :=
  {| client := client s;
     self_node_account_id := Some (node_account_id (client s));
     current_backoff := next_backoff self attempt (current_backoff s);
     err_persistant := err;
     world := w |}.

(** Assigning the two backoff attributes of an executable. *)
Definition set_backoff (self : Executable) (floor ceiling : Z) : Executable :=
  {| _max_backoff := ceiling;
     _min_backoff := floor;
     _grpc_deadline := _grpc_deadline self;
     _should_retry := _should_retry self;
     _map_status_error := _map_status_error self;
     _make_request := _make_request self;
     _get_method := _get_method self;
     _map_response := _map_response self |}.

(** A network that answers the k-th round trip with the k-th entry of a
    script, whatever the node, and with [otherwise] past its end. *)
Definition scripted (script : list (@Outcome Response)) (otherwise : @Outcome Response)
  : @Network Request Response :=
  fun k _ _ => nth k script otherwise.

(** The nodes a client can be on during an execution: the one it starts
    on and those of its list. *)
Definition candidates (c : Client) : list AccountId :=
  node_account_id c :: node_account_ids c.

(** The largest value the doubling can reach: the floor itself, or the
    double of a value still below the ceiling. *)
Definition wait_bound (self : Executable) : Z :=
  Z.max (_min_backoff self) (2 * _max_backoff self - 2).


(** The client of frame [s] has the budget and the node list of [c] and is
    on one of the candidates of [c], and every stub called so far is one the
    operation resolves on the channel of a candidate. *)
Definition among_candidates (self : Executable) (c : Client)
           (s : @Frame Request Response StatusError) : Prop :=
  max_attempts (client s) = max_attempts c /\
  node_account_ids (client s) = node_account_ids c /\
  In (node_account_id (client s)) (candidates c) /\
  forall stub,
    In stub (called (trace (world s))) ->
    exists on, In on (candidates c) /\
               slot (_get_method self (mk_Channel on)) = Some stub.

(** The request builder raises nothing but validation errors. *)
Definition only_validation_errors (self : Executable) : Prop :=
  forall on e, _make_request self on = inl e -> exists message, e = ValueError message.



(** Every wait recorded in the trace [t] of an execution on the network [n]
    comes right after a round trip whose response was classified RETRY. *)
Definition waits_follow_retries (self : Executable)
           (n : @Network Request Response) (t : list Event) : Prop :=
  forall before d after,
    t = before ++ Sleep d :: after ->
    exists earlier stub proto_request response,
      before = earlier ++ [Dispatch stub] /\
      n (dispatches earlier) stub proto_request = Reply response /\
      _should_retry self response = RETRY.

End Vocabulary.

(** [b] is [floor] doubled at most [j] times. *)
Definition doublings_of (floor : Z) (j : nat) (b : Z) : Prop :=
  exists i, (i <= j)%nat /\ (b = floor * 2 ^ Z.of_nat i)%Z.

(** The delay sequence in the words of the specification:
    delay(0) = floor, delay(k) = min(delay(k-1) * 2, ceiling). *)
Fixpoint spec_delay (floor ceiling : Z) (k : nat) : Z :=
  match k with
  | O => floor
  | S k' => Z.min (spec_delay floor ceiling k' * 2) ceiling
  end.

Definition spec_delays (floor ceiling : Z) (n : nat) : list Z :=
  map (spec_delay floor ceiling) (seq 0 n).

(** ** The setting of the test-suite *)

Definition node3 : AccountId := mkAccountId 0 0 3.
Definition node4 : AccountId := mkAccountId 0 0 4.
Definition node5 : AccountId := mkAccountId 0 0 5.

Definition busy_response : @Outcome TransactionResponse :=
  Reply (mkTransactionResponse BUSY).
Definition ok_response : @Outcome TransactionResponse :=
  Reply (mkTransactionResponse OK).
Definition expired_response : @Outcome TransactionResponse :=
  Reply (mkTransactionResponse TRANSACTION_EXPIRED).
Definition invalid_body_response : @Outcome TransactionResponse :=
  Reply (mkTransactionResponse INVALID_TRANSACTION_BODY).
Definition unavailable : @Outcome TransactionResponse :=
  RpcError "StatusCode.UNAVAILABLE" "Test error".

(** A client on the first of the given nodes. *)
Definition client_on (nodes : list AccountId) (budget : Z) : Client :=
  {| max_attempts := budget;
     node_account_id := nth 0 nodes node3;
     node_account_ids := nodes |}.

(** A topic update with its topic set, over a trivial common body. *)
Definition a_topic_update : TopicUpdateTransaction.t :=
  TopicUpdateTransaction.set_topic_id TopicUpdateTransaction.init
    (Some (mkTopicId 0 0 456)).

Definition topic_update_executable (tx : TopicUpdateTransaction.t)
  : @_Executable (TransactionBody unit) TransactionResponse PrecheckError Submitted :=
  transaction_executable
    (TopicUpdateTransaction.build_transaction_body (inr tt) tx)
    TopicUpdateTransaction._get_method.

(** The same execution as the tests run it: a scripted network, and the
    trace it leaves. *)
Definition run (self : @_Executable (TransactionBody unit) TransactionResponse
                                    PrecheckError Submitted)
           (c : Client) (script : list (@Outcome TransactionResponse)) :=
  _execute self None c (fresh (scripted script unavailable)).

(** The frame [_execute] enters its loop with, in that setting. *)
Definition starting (self : @_Executable (TransactionBody unit) TransactionResponse
                                         PrecheckError Submitted)
           (c : Client) (script : list (@Outcome TransactionResponse))
  : @Frame (TransactionBody unit) TransactionResponse PrecheckError :=
  {| client := c;
     self_node_account_id := None;
     current_backoff := _min_backoff self;
     err_persistant := None;
     world := fresh (scripted script unavailable) |}.

(** The stub a topic update is sent through on a node. *)
Definition update_topic_on (node : AccountId) : Stub :=
  topic_updateTopic (mk_Channel node).

(** ** Traces *)

Lemma dispatches_app (t u : list Event) :
  dispatches (t ++ u) = (dispatches t + dispatches u)%nat.
Proof.
  unfold dispatches. now rewrite filter_app, length_app.
Qed.

Lemma sleeps_app (t u : list Event) :
  sleeps (t ++ u) = sleeps t ++ sleeps u.
Proof.
  induction t as [|[s|d] t IH]; simpl; [reflexivity|exact IH|now rewrite IH].
Qed.

Lemma called_app (t u : list Event) :
  called (t ++ u) = called t ++ called u.
Proof.
  induction t as [|[s|d] t IH]; simpl; [reflexivity|now rewrite IH|exact IH].
Qed.




Lemma dispatches_snoc_dispatch (t : list Event) (stub : Stub) :
  dispatches (t ++ [Dispatch stub]) = S (dispatches t).
Proof.
  rewrite dispatches_app. unfold dispatches at 2. simpl. lia.
Qed.

Lemma dispatches_snoc_sleep (t : list Event) (d : Z) :
  dispatches (t ++ [Sleep d]) = dispatches t.
Proof.
  rewrite dispatches_app. unfold dispatches at 2. simpl. lia.
Qed.

(** ** The backoff step *)

Section BackoffStep.

Context {Request Response StatusError Result : Type}.
Variable self : @_Executable Request Response StatusError Result.


End BackoffStep.

(** ** One iteration *)

Section Iteration.

Context {Request Response StatusError Result : Type}.
Variable self : @_Executable Request Response StatusError Result.


(** [_execute_method] is a call on the slot, or the failure when there is
    none. *)
Lemma _execute_method_slot (method : _Method) (proto_request : Request)
      (w : @World Request Response) :
  @_execute_method Request Response StatusError method proto_request w =
  match slot method with
  | Some stub =>
      match net w (dispatches (trace w)) stub proto_request with
      | Reply response => (inr response, record (Dispatch stub) w)
      | RpcError code details =>
          (inl (GrpcRpcError code details), record (Dispatch stub) w)
      end
  | None => (inl (Exception "No method to execute"), w)
  end.
Proof.
  unfold _execute_method, slot, call.
  destruct (transaction method) as [f|].
  - destruct (net w _ f proto_request); reflexivity.
  - destruct (query method) as [f|]; [|reflexivity].
    destruct (net w _ f proto_request); reflexivity.
Qed.

Variables (attempt : nat) (s : @Frame Request Response StatusError).
Variables (proto_request : Request) (stub : Stub).
Hypothesis Hreq :
  _make_request self (Some (node_account_id (client s))) = inr proto_request.
Hypothesis Hslot :
  slot (_get_method self (mk_Channel (channel (client s)))) = Some stub.

Local Abbreviation outcome :=
  (net (world s) (dispatches (trace (world s))) stub proto_request).



(** EXPIRED or ERROR: raise the mapped error at once. *)
Lemma attempt_body_terminal (response : Response) :
  outcome = Reply response ->
  _should_retry self response = ERROR \/ _should_retry self response = EXPIRED ->
  attempt_body self attempt s =
  Raise (StatusRaised (_map_status_error self response))
        (entered self attempt s (record (Dispatch stub) (world s)) (err_persistant s)).
Proof.
  intros Ho Hc. unfold attempt_body.
  rewrite Hreq, _execute_method_slot, Hslot.
  rewrite Ho.
  destruct Hc as [Hc|Hc]; rewrite Hc; reflexivity.
Qed.


(** Transport failure: record the text, switch to the node at position
    [(attempt + 1) mod len], go on without waiting. *)
Lemma attempt_body_transport (code details : string) (first : AccountId) :
  outcome = RpcError code details ->
  hd_error (node_account_ids (client s)) = Some first ->
  attempt_body self attempt s =
  Continue
    {| client :=
         _switch_node (client s)
           (nth ((attempt + 1) mod List.length (node_account_ids (client s)))
                (node_account_ids (client s)) first);
       self_node_account_id := Some (node_account_id (client s));
       current_backoff := next_backoff self attempt (current_backoff s);
       err_persistant := Some (inr (rpc_error_text code details));
       world := record (Dispatch stub) (world s) |}.
Proof.
  intros Ho Hn. unfold attempt_body.
  rewrite Hreq, _execute_method_slot, Hslot.
  rewrite Ho. unfold get_node_account_ids.
  destruct (node_account_ids (client s)) as [|x xs]; [discriminate|].
  simpl in Hn. injection Hn as ->. reflexivity.
Qed.

End Iteration.

(** ** Runs of iterations *)

Section Runs.

Context {Request Response StatusError Result : Type}.
Variable self : @_Executable Request Response StatusError Result.

Local Abbreviation exhausted s :=
  (MaxAttemptsError "Exceeded maximum attempts for request"
                    (node_account_id (client s)) (err_persistant s)).






End Runs.

(** ** The backoff sequence *)

Section Backoff.

Context {Request Response StatusError Result : Type}.
Variable self : @_Executable Request Response StatusError Result.

Local Abbreviation floor := (_min_backoff self).
Local Abbreviation ceiling := (_max_backoff self).

(** Where the ceiling is the floor doubled [j] times, as with the defaults
    (250 and 8000), doubling never jumps over the ceiling and the waits of
    the code are those of the specification. *)
Variable j : nat.
Hypothesis Hfloor : (0 < floor)%Z.
Hypothesis Hceiling : (ceiling = floor * 2 ^ Z.of_nat j)%Z.

Local Abbreviation on_ladder := (doublings_of floor j).




End Backoff.

(** ** Whole executions that only see RETRY *)

Section AllRetry.

Context {Request Response StatusError Result : Type}.
Variable self : @_Executable Request Response StatusError Result.


End AllRetry.

(** ** The claims *)

Section Claims.

Context {Request Response StatusError Result : Type}.
Variable self : @_Executable Request Response StatusError Result.

(** C3.  A response classified ERROR or EXPIRED ends the execution at once:
    whatever came before (the frame [s]) and however many attempts remain
    (the list [rest]), the loop raises the error the response maps to after
    exactly one round trip for this iteration, without any wait and without
    touching the client. *)
Theorem terminal_status_raises_at_once
        (attempt : nat) (rest : list nat)
        (s : @Frame Request Response StatusError)
        (proto_request : Request) (stub : Stub) (response : Response) :
  _make_request self (Some (node_account_id (client s))) = inr proto_request ->
  slot (_get_method self (mk_Channel (channel (client s)))) = Some stub ->
  net (world s) (dispatches (trace (world s))) stub proto_request = Reply response ->
  _should_retry self response = ERROR \/ _should_retry self response = EXPIRED ->
  exists s',
    loop self (attempt :: rest) s =
      (inl (StatusRaised (_map_status_error self response)), s') /\
    trace (world s') = trace (world s) ++ [Dispatch stub] /\
    dispatches (trace (world s')) = S (dispatches (trace (world s))) /\
    sleeps (trace (world s')) = sleeps (trace (world s)) /\
    client s' = client s.
Proof.
  intros Hreq Hslot Hout Hclass.
  eexists. cbn [loop].
  rewrite (attempt_body_terminal self attempt s Hreq Hslot Hout Hclass).
  split; [reflexivity|].
  cbn [entered world record trace client].
  rewrite dispatches_snoc_dispatch, sleeps_app. cbn [sleeps].
  rewrite app_nil_r. repeat split.
Qed.




(** C8.  A method handle with exactly one slot populated is dispatched
    through that slot, by one call, and the failure for a missing method is
    not raised; that failure is raised if and only if both slots are
    [None]. *)
Theorem dispatch_calls_the_populated_slot
        (method : _Method) (proto_request : Request)
        (w : @World Request Response) :
  (exactly_one method ->
   exists stub,
     (transaction method = Some stub /\ query method = None \/
      transaction method = None /\ query method = Some stub) /\
     @_execute_method Request Response StatusError method proto_request w =
       (returned (net w (dispatches (trace w)) stub proto_request),
        record (Dispatch stub) w)) /\
  (fst (@_execute_method Request Response StatusError method proto_request w)
     = inl (Exception "No method to execute") <->
   transaction method = None /\ query method = None).
Proof.
  rewrite _execute_method_slot. unfold exactly_one, slot. split.
  - intros [[Ht Hq]|[Ht Hq]].
    + destruct (transaction method) as [f|]; [|congruence].
      exists f. split; [auto|].
      destruct (net w _ f proto_request); reflexivity.
    + rewrite Ht. destruct (query method) as [f|]; [|congruence].
      exists f. split; [auto|].
      destruct (net w _ f proto_request); reflexivity.
  - destruct (transaction method) as [f|].
    + split; [|intros [? _]; discriminate].
      destruct (net w _ f proto_request); discriminate.
    + destruct (query method) as [f|].
      * split; [|intros [_ ?]; discriminate].
        destruct (net w _ f proto_request); discriminate.
      * split; auto.
Qed.

(** C9.  With a budget of zero the loop body never runs: no round trip, no
    wait (the world is returned as it was given), and the
    attempts-exhausted error is raised with the client's node and with
    [None] as its last error. *)
Theorem zero_budget_raises_without_dispatch
        (node : option AccountId) (current : AccountId)
        (nodes : list AccountId) (w : @World Request Response) :
  _execute self node (mkClient 0 current nodes) w =
    (inl (MaxAttemptsError "Exceeded maximum attempts for request" current None),
     {| client := mkClient 0 current nodes;
        self_node_account_id := node;
        current_backoff := _min_backoff self;
        err_persistant := None;
        world := w |}) /\
  dispatches (trace (world (snd (_execute self node (mkClient 0 current nodes) w))))
    = dispatches (trace w) /\
  sleeps (trace (world (snd (_execute self node (mkClient 0 current nodes) w))))
    = sleeps (trace w).
Proof.
  repeat split.
Qed.


End Claims.


(** ** Failover *)

Section Failover.

Context {Request Response StatusError Result : Type}.
Variable self : @_Executable Request Response StatusError Result.

(** What [M] consecutive transport failures do, the first at iteration
    [attempt]: [M] round trips, no wait, and the client ends on the node at
    position [(attempt + M) mod len] of the list, a position computed from
    the attempt number and not from the position the client was on. *)
Lemma transport_failures_switch (first : AccountId) :
  forall (M attempt : nat) (rest : list nat)
         (s : @Frame Request Response StatusError),
    builds self -> resolves self ->
    hd_error (node_account_ids (client s)) = Some first ->
    (forall k stub proto_request,
        (dispatches (trace (world s)) <= k < dispatches (trace (world s)) + M)%nat ->
        exists code details,
          net (world s) k stub proto_request = RpcError code details) ->
    exists s',
      loop self (seq attempt M ++ rest) s = loop self rest s' /\
      dispatches (trace (world s')) = (dispatches (trace (world s)) + M)%nat /\
      sleeps (trace (world s')) = sleeps (trace (world s)) /\
      net (world s') = net (world s) /\
      node_account_ids (client s') = node_account_ids (client s) /\
      node_account_id (client s') =
        match M with
        | O => node_account_id (client s)
        | S _ => nth ((attempt + M) mod List.length (node_account_ids (client s)))
                     (node_account_ids (client s)) first
        end.
Proof.
  induction M as [|M IH]; intros attempt rest s Hb Hr Hfirst Hnet.
  - exists s. simpl. repeat split; lia.
  - destruct (Hb (Some (node_account_id (client s)))) as [proto_request Hreq].
    destruct (Hr (mk_Channel (channel (client s)))) as [stub Hslot].
    destruct (Hnet (dispatches (trace (world s))) stub proto_request)
      as (code & details & Hout); [lia|].
    pose proof (attempt_body_transport self attempt s Hreq Hslot Hout Hfirst)
      as Hstep.
    match type of Hstep with _ = Continue ?f => set (s1 := f) in * end.
    assert (Hd : dispatches (trace (world s1)) = S (dispatches (trace (world s)))).
    { subst s1. cbn [world record trace]. apply dispatches_snoc_dispatch. }
    assert (Hids : node_account_ids (client s1) = node_account_ids (client s))
      by reflexivity.
    destruct (IH (S attempt) rest s1 Hb Hr)
      as (s' & Hl & Hd' & Hs' & Hn' & Hi' & Hnode).
    + rewrite Hids. exact Hfirst.
    + intros k stub' request' Hk. rewrite Hd in Hk.
      subst s1. cbn [world record net]. apply Hnet. lia.
    + exists s'. simpl seq. cbn [app loop]. rewrite Hstep, Hl.
      split; [reflexivity|]. split; [lia|]. split.
      { rewrite Hs'. subst s1. cbn [world record trace].
        rewrite sleeps_app. cbn [sleeps]. now rewrite app_nil_r. }
      split; [exact Hn'|]. split; [now rewrite Hi'|].
      rewrite Hnode, Hids. destruct M as [|M'].
      * subst s1. cbn [client _switch_node node_account_id]. reflexivity.
      * now replace (S attempt + S M')%nat with (attempt + S (S M'))%nat by lia.
Qed.

End Failover.

(** ** Request validation *)

Section Validation.

Context {Request Response StatusError Result : Type}.
Variable self : @_Executable Request Response StatusError Result.

(** The request is built before the [try]: an exception of the builder in
    the first iteration leaves [_execute] as it is, before any round trip. *)
Lemma execute_build_error (node : option AccountId) (c : Client)
      (w : @World Request Response) (e : @Raised StatusError) :
  (1 <= max_attempts c)%Z ->
  _make_request self (Some (node_account_id c)) = inl e ->
  _execute self node c w =
    (inl e, {| client := c;
               self_node_account_id := Some (node_account_id c);
               current_backoff := _min_backoff self;
               err_persistant := None;
               world := w |}).
Proof.
  intros H1 He. unfold _execute, range.
  destruct (Z.to_nat (max_attempts c)) as [|m] eqn:Hm; [lia|].
  simpl seq. cbn [loop]. unfold attempt_body.
  cbn [client]. rewrite He. reflexivity.
Qed.

End Validation.

(** C7.  A topic update without topic id, and a token unfreeze without token
    id or without account id, fail to build with a [ValueError]; when such an
    operation is executed (with a budget of at least one attempt) that error
    leaves [_execute] in the first iteration: no round trip is made, nothing
    is waited for (the world is as it was), no further attempt follows and
    the client is untouched. *)
Theorem missing_fields_surface_unretried
        (BaseBody : Type) (build_base : string + BaseBody)
        (get_method : _Channel -> _Method)
        (node : option AccountId) (c : Client)
        (w : @World (TransactionBody BaseBody) TransactionResponse) :
  (1 <= max_attempts c)%Z ->
  let raised message :=
    (inl (ValueError message),
     {| client := c;
        self_node_account_id := Some (node_account_id c);
        current_backoff := DEFAULT_MIN_BACKOFF;
        err_persistant := None;
        world := w |}) in
  (forall tx,
      TopicUpdateTransaction.topic_id tx = None ->
      TopicUpdateTransaction.build_transaction_body build_base tx
        = inl "Missing required fields: topic_id"%string /\
      _execute (transaction_executable
                  (TopicUpdateTransaction.build_transaction_body build_base tx)
                  TopicUpdateTransaction._get_method) node c w
        = raised "Missing required fields: topic_id"%string) /\
  (forall tx,
      TokenUnfreezeTransaction.token_id tx = None ->
      TokenUnfreezeTransaction.build_transaction_body build_base tx
        = inl "Missing required TokenID."%string /\
      _execute (transaction_executable
                  (TokenUnfreezeTransaction.build_transaction_body build_base tx)
                  get_method) node c w
        = raised "Missing required TokenID."%string) /\
  (forall tx,
      TokenUnfreezeTransaction.token_id tx <> None ->
      TokenUnfreezeTransaction.account_id tx = None ->
      TokenUnfreezeTransaction.build_transaction_body build_base tx
        = inl "Missing required AccountID."%string /\
      _execute (transaction_executable
                  (TokenUnfreezeTransaction.build_transaction_body build_base tx)
                  get_method) node c w
        = raised "Missing required AccountID."%string).
Proof.
  intros H1 raised. split; [|split].
  - intros tx Htopic.
    assert (Hb : TopicUpdateTransaction.build_transaction_body build_base tx
                 = inl "Missing required fields: topic_id"%string).
    { unfold TopicUpdateTransaction.build_transaction_body. now rewrite Htopic. }
    split; [exact Hb|].
    apply execute_build_error; [exact H1|].
    cbn [_make_request transaction_executable]. now rewrite Hb.
  - intros tx Htoken.
    assert (Hb : TokenUnfreezeTransaction.build_transaction_body build_base tx
                 = inl "Missing required TokenID."%string).
    { unfold TokenUnfreezeTransaction.build_transaction_body. now rewrite Htoken. }
    split; [exact Hb|].
    apply execute_build_error; [exact H1|].
    cbn [_make_request transaction_executable]. now rewrite Hb.
  - intros tx Htoken Haccount.
    assert (Hb : TokenUnfreezeTransaction.build_transaction_body build_base tx
                 = inl "Missing required AccountID."%string).
    { unfold TokenUnfreezeTransaction.build_transaction_body.
      destruct (TokenUnfreezeTransaction.token_id tx); [|congruence].
      now rewrite Haccount. }
    split; [exact Hb|].
    apply execute_build_error; [exact H1|].
    cbn [_make_request transaction_executable]. now rewrite Hb.
Qed.

(** ** The two places where the code leaves the claims *)

(** C1.  The code doubles the delay whenever it is below the ceiling and
    never caps the doubled value.  With a floor of 250 ms, a ceiling of
    600 ms and four attempts all answered BUSY, the engine waits 250, 500,
    1000 and 1000 ms, where the sequence of the claim is 250, 500, 600, 600:
    the third and fourth waits exceed the ceiling. *)
Theorem backoff_overshoots_the_ceiling :
  sleeps (trace (world (snd
    (run (set_backoff (topic_update_executable a_topic_update) 250 600)
         (client_on [node3] 4)
         [busy_response; busy_response; busy_response; busy_response]))))
    = [250; 500; 1000; 1000]%Z /\
  spec_delays 250 600 4 = [250; 500; 600; 600]%Z /\
  retry_delays (set_backoff (topic_update_executable a_topic_update) 250 600)
               0 250 4 = [250; 500; 1000; 1000]%Z.
Proof.
  repeat split.
Qed.

(** C2.  The node the code switches to is the one at position
    [(attempt + 1) mod len], whatever position the client is on.  With two
    nodes and the outcomes transport failure, BUSY, transport failure, OK,
    the calls go to the nodes 0.0.3, 0.0.4, 0.0.4, 0.0.4: the failure of the
    third attempt, met on position 1, leaves the client on position 1.  With
    three nodes and the outcomes BUSY, transport failure, OK, the calls go to
    0.0.3, 0.0.3, 0.0.5: the failure moves the client from position 0 to
    position 2.  Neither failure is followed by a wait of its own. *)
Theorem failover_position_follows_the_attempt_number :
  (let final := run (topic_update_executable a_topic_update)
                    (client_on [node3; node4] 4)
                    [unavailable; busy_response; unavailable; ok_response] in
   map target (called (trace (world (snd final)))) = [node3; node4; node4; node4] /\
   sleeps (trace (world (snd final))) = [500%Z] /\
   fst final = inr (mkSubmitted node4 OK)) /\
  (let final := run (topic_update_executable a_topic_update)
                    (client_on [node3; node4; node5] 3)
                    [busy_response; unavailable; ok_response] in
   map target (called (trace (world (snd final)))) = [node3; node3; node5] /\
   sleeps (trace (world (snd final))) = [250%Z] /\
   fst final = inr (mkSubmitted node5 OK)).
Proof.
  repeat split.
Qed.

(** ** The theorems at work on the setting of the test-suite *)

Lemma terminal_status_raises_at_once_witness :
  let self := topic_update_executable a_topic_update in
  let s := starting self (client_on [node3; node4] 3)
                    [expired_response; ok_response] in
  exists s',
    loop self [0; 1; 2]%nat s =
      (inl (StatusRaised (mkPrecheckError TRANSACTION_EXPIRED)), s') /\
    trace (world s') = trace (world s) ++ [Dispatch (update_topic_on node3)] /\
    dispatches (trace (world s')) = S (dispatches (trace (world s))) /\
    sleeps (trace (world s')) = sleeps (trace (world s)) /\
    client s' = client s.
Proof.
  intros self s.
  refine (@terminal_status_raises_at_once _ _ _ _ self 0%nat [1; 2]%nat s _
            (update_topic_on node3) (mkTransactionResponse TRANSACTION_EXPIRED)
            eq_refl eq_refl eq_refl (or_intror eq_refl)).
Defined.




Lemma missing_fields_surface_unretried_witness :
  (1 <= max_attempts (client_on [node3; node4] 3))%Z /\
  run (topic_update_executable TopicUpdateTransaction.init)
      (client_on [node3; node4] 3) [ok_response]
  = (inl (ValueError "Missing required fields: topic_id"),
     {| client := client_on [node3; node4] 3;
        self_node_account_id := Some node3;
        current_backoff := 250;
        err_persistant := None;
        world := fresh (scripted [ok_response] unavailable) |}).
Proof.
  assert (H1 : (1 <= max_attempts (client_on [node3; node4] 3))%Z)
    by (cbv; intro H; discriminate H).
  split; [exact H1|].
  destruct (@missing_fields_surface_unretried unit (inr tt)
              TopicUpdateTransaction._get_method None
              (client_on [node3; node4] 3)
              (fresh (scripted [ok_response] unavailable)) H1)
    as [Htopic _].
  exact (proj2 (Htopic TopicUpdateTransaction.init eq_refl)).
Defined.

Lemma dispatch_calls_the_populated_slot_witness :
  let method := TopicUpdateTransaction._get_method (mk_Channel node3) in
  let w : @World (TransactionBody unit) TransactionResponse :=
    fresh (scripted [ok_response] unavailable) in
  exactly_one method /\
  forall proto_request,
  exists stub,
    (transaction method = Some stub /\ query method = None \/
     transaction method = None /\ query method = Some stub) /\
    @_execute_method _ _ PrecheckError method proto_request w =
      (returned (net w (dispatches (trace w)) stub proto_request),
       record (Dispatch stub) w).
Proof.
  intros method w.
  assert (H1 : exactly_one method) by (left; split; [discriminate|reflexivity]).
  split; [exact H1|]. intros proto_request.
  exact (proj1 (@dispatch_calls_the_populated_slot _ _ PrecheckError
                  method proto_request w) H1).
Defined.


(** ** Splitting a list that ends with a given element *)

Lemma snoc_eq_middle {A : Type} (t before after : list A) (e x : A) :
  t ++ [e] = before ++ x :: after ->
  (after = [] /\ t = before /\ e = x) \/
  (exists after', after = after' ++ [e] /\ t = before ++ x :: after').
Proof.
  intros H. destruct after as [|a0 after0].
  - left. apply app_inj_tail in H. destruct H as [H1 H2]. auto.
  - right. destruct (@exists_last _ (a0 :: after0)) as (l' & a & Hl);
      [discriminate|].
    rewrite Hl in H. rewrite app_comm_cons, app_assoc in H.
    apply app_inj_tail in H. destruct H as [H1 H2]. subst a.
    exists l'. split; [exact Hl|exact H1].
Qed.

(** ** Invariants of every execution *)

(** The nine ways an iteration can go: the request does not build; there
    is no method; the call fails with the node list empty or not; the
    response is classified RETRY and the wait raises or is made; the response
    is classified FINISHED, ERROR or EXPIRED. *)
Ltac iteration_cases self s :=
  unfold attempt_body;
  destruct (_make_request self (Some (node_account_id (client s))))
    as [e|proto_request] eqn:Hreq;
  [|rewrite _execute_method_slot;
    destruct (slot (_get_method self (mk_Channel (channel (client s)))))
      as [stub|] eqn:Hslot;
    [destruct (net (world s) (dispatches (trace (world s))) stub proto_request)
       as [code details|response] eqn:Hout;
     [unfold get_node_account_ids;
      destruct (node_account_ids (client s)) as [|first others] eqn:Hids
     |destruct (_should_retry self response) eqn:Hclass;
      [unfold _delay_for_attempt;
       match goal with
       | |- context [(?b <? 0)%Z] => destruct (Z.ltb_spec b 0) as [Hneg|Hpos]
       end
      | | | ]]
    |]].

(** Reading the fields of the frame an iteration ends with. *)
Ltac frame_fields :=
  cbn beta;
  cbn [entered client world err_persistant current_backoff
       self_node_account_id record _delay_for_attempt trace net _switch_node
       node_account_ids node_account_id max_attempts].

Section Invariants.

Context {Request Response StatusError Result : Type}.
Variable self : @_Executable Request Response StatusError Result.

(** A property of the frame that every iteration keeps is kept by the
    loop. *)
Lemma loop_invariant (P : @Frame Request Response StatusError -> Prop) :
  (forall attempt s,
      P s ->
      match attempt_body self attempt s with
      | Continue s' | Return _ s' | Raise _ s' => P s'
      end) ->
  forall attempts s, P s -> P (snd (loop self attempts s)).
Proof.
  intros Hstep. induction attempts as [|attempt rest IH]; intros s Hs.
  - exact Hs.
  - cbn [loop]. specialize (Hstep attempt s Hs).
    destruct (attempt_body self attempt s) as [s'|r s'|e s'];
      [apply IH|cbn [snd]|cbn [snd]]; exact Hstep.
Qed.

Lemma next_backoff_bounds (attempt : nat) (b : Z) :
  (0 <= _min_backoff self)%Z ->
  (_min_backoff self <= b <= wait_bound self)%Z ->
  (_min_backoff self <= next_backoff self attempt b <= wait_bound self)%Z.
Proof.
  unfold next_backoff, wait_bound. intros H0 Hb.
  destruct (0 <? attempt)%nat; cbn [andb]; [|exact Hb].
  destruct (Z.ltb_spec b (_max_backoff self)); lia.
Qed.

(** X3.  With a floor that is not negative, whatever the network answers,
    every wait of an execution is at least the floor and at most the larger
    of the floor and twice the ceiling minus two: doubling only happens below
    the ceiling, so a wait never reaches twice the ceiling unless the floor
    does. *)
Theorem every_wait_is_bounded
        (node : option AccountId) (c : Client) (n : @Network Request Response) :
  (0 <= _min_backoff self)%Z ->
  Forall (fun d => (_min_backoff self <= d <= wait_bound self)%Z)
         (sleeps (trace (world (snd (_execute self node c (fresh n)))))).
Proof.
  intros H0. unfold _execute.
  set (P := fun s : @Frame Request Response StatusError =>
              (_min_backoff self <= current_backoff s <= wait_bound self)%Z /\
              Forall (fun d => (_min_backoff self <= d <= wait_bound self)%Z)
                     (sleeps (trace (world s)))).
  apply (loop_invariant P).
  - intros attempt s [Hb Hs].
    pose proof (next_backoff_bounds attempt H0 Hb) as Hb'.
    iteration_cases self s; subst P; frame_fields;
      rewrite ?sleeps_app; cbn [sleeps]; rewrite ?app_nil_r;
      try (split; [exact Hb'|exact Hs]).
    split; [exact Hb'|]. apply Forall_app. split; [exact Hs|].
    constructor; [exact Hb'|constructor].
  - subst P. cbn. split; [|constructor]. unfold wait_bound. lia.
Qed.

Lemma waits_follow_retries_dispatch (n : @Network Request Response)
      (t : list Event) (stub : Stub) :
  waits_follow_retries self n t ->
  waits_follow_retries self n (t ++ [Dispatch stub]).
Proof.
  intros H before d after E.
  apply snoc_eq_middle in E. destruct E as [(_ & _ & E)|(after' & _ & E)].
  - discriminate E.
  - exact (H _ _ _ E).
Qed.

Lemma waits_follow_retries_sleep (n : @Network Request Response)
      (t : list Event) (stub : Stub) (proto_request : Request)
      (response : Response) (b : Z) :
  waits_follow_retries self n t ->
  n (dispatches t) stub proto_request = Reply response ->
  _should_retry self response = RETRY ->
  waits_follow_retries self n ((t ++ [Dispatch stub]) ++ [Sleep b]).
Proof.
  intros H Ho Hc before d after E.
  apply snoc_eq_middle in E. destruct E as [(_ & E & _)|(after' & _ & E)].
  - subst before. exists t, stub, proto_request, response. auto.
  - exact (@waits_follow_retries_dispatch n t stub H _ _ _ E).
Qed.

(** X4.  In every execution each wait follows a round trip of its own that
    was answered RETRY: whatever comes before a wait in the trace ends with a
    round trip, and the response the network gave to that round trip is
    classified RETRY.  So no wait is made after a transport failure, after a
    success or before the first round trip, and the waits made are no more
    than the round trips made. *)
Theorem every_wait_follows_a_retry
        (node : option AccountId) (c : Client) (n : @Network Request Response) :
  waits_follow_retries self n
    (trace (world (snd (_execute self node c (fresh n))))) /\
  (List.length (sleeps (trace (world (snd (_execute self node c (fresh n))))))
   <= dispatches (trace (world (snd (_execute self node c (fresh n))))))%nat.
Proof.
  unfold _execute.
  set (P := fun s : @Frame Request Response StatusError =>
              net (world s) = n /\
              waits_follow_retries self n (trace (world s)) /\
              (List.length (sleeps (trace (world s)))
               <= dispatches (trace (world s)))%nat).
  assert (HP : P (snd (loop self (range (max_attempts c))
                            {| client := c;
                               self_node_account_id := node;
                               current_backoff := _min_backoff self;
                               err_persistant := None;
                               world := fresh n |}))).
  { apply (loop_invariant P).
    - intros attempt s (Hn & Hw & Hl).
      iteration_cases self s; subst P; frame_fields;
        (split; [exact Hn|split]);
        try exact Hw; try exact Hl;
        try (apply waits_follow_retries_dispatch; exact Hw);
        try (rewrite ?sleeps_app, ?dispatches_snoc_sleep, ?dispatches_snoc_dispatch;
             cbn [sleeps]; rewrite ?app_nil_r, ?length_app; cbn [List.length]; lia).
      apply (@waits_follow_retries_sleep n _ stub proto_request response);
        [exact Hw| |exact Hclass].
      rewrite <- Hn. exact Hout.
    - subst P. cbn. split; [reflexivity|]. split; [|lia].
      intros before d after E. destruct before; discriminate E. }
  destruct HP as (_ & Hw & Hl). split; [exact Hw|exact Hl].
Qed.

Lemma among_candidates_kept (c : Client) (attempt : nat)
      (s : @Frame Request Response StatusError) :
  among_candidates self c s ->
  match attempt_body self attempt s with
  | Continue s' | Return _ s' | Raise _ s' => among_candidates self c s'
  end.
Proof.
  unfold among_candidates. intros (Hm & Hl & Hn & Hc).
  assert (Hcall : forall stub0,
             slot (_get_method self (mk_Channel (channel (client s)))) = Some stub0 ->
             forall stub,
               In stub (called (trace (world s) ++ [Dispatch stub0])) ->
               exists on, In on (candidates c) /\
                          slot (_get_method self (mk_Channel on)) = Some stub).
  { intros stub0 H0 stub Hin. rewrite called_app in Hin.
    apply in_app_or in Hin. destruct Hin as [Hin|Hin]; [now apply Hc|].
    cbn in Hin. destruct Hin as [<-|[]].
    exists (node_account_id (client s)). split; [exact Hn|exact H0]. }
  iteration_cases self s; frame_fields;
    try (split; [exact Hm|split; [congruence|split; [exact Hn|]]];
         first [exact Hc | exact (Hcall stub eq_refl)]).
  - (* the switch *)
    split; [exact Hm|split; [congruence|split; [|exact (Hcall stub eq_refl)]]].
    right. rewrite <- Hl. apply nth_In.
    apply Nat.mod_upper_bound. discriminate.
  - (* the wait *)
    split; [exact Hm|split; [exact Hl|split; [exact Hn|]]].
    intros stub0 Hin. rewrite called_app in Hin. cbn [called] in Hin.
    rewrite app_nil_r in Hin. now apply (Hcall stub).
Qed.

Lemma among_candidates_execute
      (node : option AccountId) (c : Client) (n : @Network Request Response) :
  among_candidates self c (snd (_execute self node c (fresh n))).
Proof.
  unfold _execute. apply (loop_invariant (among_candidates self c)).
  - intros attempt s. apply among_candidates_kept.
  - unfold among_candidates. cbn. repeat split; [now left|intros stub []].
Qed.

(** X5.  An execution never changes the attempt budget or the node list of
    the client, never leaves the client on a node that is neither the one it
    started on nor one of the list, and only calls stubs that the operation
    resolves on the channel of such a node. *)
Theorem client_stays_among_candidates
        (node : option AccountId) (c : Client) (n : @Network Request Response) :
  let final := snd (_execute self node c (fresh n)) in
  max_attempts (client final) = max_attempts c /\
  node_account_ids (client final) = node_account_ids c /\
  In (node_account_id (client final)) (candidates c) /\
  forall stub,
    In stub (called (trace (world final))) ->
    exists on, In on (candidates c) /\
               slot (_get_method self (mk_Channel on)) = Some stub.
Proof.
  exact (among_candidates_execute node c n).
Qed.

(** X14.  A budget that is zero or negative gives an empty range: the
    attempts-exhausted error is raised with no last error and the world is
    returned as it was given. *)
Theorem non_positive_budget_never_dispatches
        (node : option AccountId) (c : Client) (w : @World Request Response) :
  (max_attempts c <= 0)%Z ->
  fst (_execute self node c w) =
    inl (MaxAttemptsError "Exceeded maximum attempts for request"
                          (node_account_id c) None) /\
  world (snd (_execute self node c w)) = w /\
  client (snd (_execute self node c w)) = c.
Proof.
  intros Hm. unfold _execute, range.
  replace (Z.to_nat (max_attempts c)) with 0%nat by lia.
  repeat split.
Qed.

End Invariants.

(** ** Longer runs *)



Section LongerRuns.

Context {Request Response StatusError Result : Type}.
Variable self : @_Executable Request Response StatusError Result.




(** X7.  A transport failure met while the node list of the client is empty
    does not end in a switch: the modulo by the length of the list raises
    [ZeroDivisionError], which leaves the loop at once, after the one round
    trip of this iteration, whatever budget remains. *)
Theorem empty_node_list_breaks_failover
        (attempt : nat) (rest : list nat)
        (s : @Frame Request Response StatusError)
        (proto_request : Request) (stub : Stub) (code details : string) :
  _make_request self (Some (node_account_id (client s))) = inr proto_request ->
  slot (_get_method self (mk_Channel (channel (client s)))) = Some stub ->
  net (world s) (dispatches (trace (world s))) stub proto_request
    = RpcError code details ->
  node_account_ids (client s) = [] ->
  exists s',
    loop self (attempt :: rest) s = (inl ZeroDivisionError, s') /\
    trace (world s') = trace (world s) ++ [Dispatch stub] /\
    client s' = client s.
Proof.
  intros Hreq Hslot Hout Hids. eexists. cbn [loop]. unfold attempt_body.
  rewrite Hreq, _execute_method_slot, Hslot, Hout.
  unfold get_node_account_ids. rewrite Hids.
  split; [reflexivity|]. split; reflexivity.
Qed.

(** X8.  An operation whose method handle has both slots empty is not
    retried: the iteration raises the no-method exception before any round
    trip and the loop ends there, whatever budget remains. *)
Theorem missing_method_is_not_retried
        (attempt : nat) (rest : list nat)
        (s : @Frame Request Response StatusError) (proto_request : Request) :
  _make_request self (Some (node_account_id (client s))) = inr proto_request ->
  transaction (_get_method self (mk_Channel (channel (client s)))) = None ->
  query (_get_method self (mk_Channel (channel (client s)))) = None ->
  exists s',
    loop self (attempt :: rest) s = (inl (Exception "No method to execute"), s') /\
    world s' = world s /\
    client s' = client s.
Proof.
  intros Hreq Ht Hq. eexists. cbn [loop]. unfold attempt_body.
  rewrite Hreq. unfold _execute_method. rewrite Ht, Hq.
  split; [reflexivity|]. split; reflexivity.
Qed.

End LongerRuns.

(** ** Mixed runs and failover to exhaustion *)

Section MixedRuns.

Context {Request Response StatusError Result : Type}.
Variable self : @_Executable Request Response StatusError Result.



(** X6.  When every attempt of a budget of [m + 1] ends in a transport
    failure, the engine makes [m + 1] round trips and no wait, and raises the
    attempts-exhausted error with the text of the last failure and with the
    node at position [(m + 1) mod len] of the list: the node it switched to
    after the last failure, to which nothing was sent in that position. *)
Theorem all_transport_failures_exhaust
        (node : option AccountId) (c : Client)
        (n : @Network Request Response) (m : nat) (first : AccountId)
        (codes texts : nat -> string) :
  builds self -> resolves self ->
  hd_error (node_account_ids c) = Some first ->
  max_attempts c = Z.of_nat (S m) ->
  (forall k stub proto_request,
      (k <= m)%nat -> n k stub proto_request = RpcError (codes k) (texts k)) ->
  let final := _execute self node c (fresh n) in
  fst final =
    inl (MaxAttemptsError
           "Exceeded maximum attempts for request"
           (nth (S m mod List.length (node_account_ids c)) (node_account_ids c) first)
           (Some (inr (rpc_error_text (codes m) (texts m))))) /\
  dispatches (trace (world (snd final))) = S m /\
  sleeps (trace (world (snd final))) = [].
Proof.
  intros Hb Hr Hfirst HN Hnet final. subst final.
  unfold _execute, range. rewrite HN, Nat2Z.id, seq_S. cbn [Nat.add].
  match goal with |- context [loop self _ ?f] => set (s0 := f) end.
  destruct (@transport_failures_switch _ _ _ _ self first m 0 [m] s0 Hb Hr Hfirst)
    as (s' & Hl & Hd & Hs & Hn & Hi & _).
  { intros k stub proto_request Hk. exists (codes k), (texts k).
    apply Hnet. subst s0. cbn in Hk. lia. }
  rewrite Hl. cbn [loop].
  destruct (Hb (Some (node_account_id (client s')))) as [proto_request Hreq].
  destruct (Hr (mk_Channel (channel (client s')))) as [stub Hslot].
  assert (Hout : net (world s') (dispatches (trace (world s'))) stub proto_request
                 = RpcError (codes m) (texts m)).
  { rewrite Hn, Hd. subst s0. cbn. apply Hnet. lia. }
  assert (Hfirst' : hd_error (node_account_ids (client s')) = Some first)
    by (rewrite Hi; exact Hfirst).
  rewrite (attempt_body_transport self m s' Hreq Hslot Hout Hfirst').
  frame_fields. cbn [fst snd]. frame_fields.
  rewrite Hi, dispatches_snoc_dispatch, sleeps_app, Hd, Hs.
  subst s0. cbn [client world fresh trace sleeps app dispatches].
  replace (m + 1)%nat with (S m) by lia. repeat split.
Qed.

(** The no-method exception, or any exception of that plain class, leaves
    the loop only if the request builder raised it or if some channel gives a
    handle with both slots empty. *)
Lemma loop_plain_exception (message : string) :
  forall (attempts : list nat) (s : @Frame Request Response StatusError),
    fst (loop self attempts s) = inl (Exception message) ->
    (exists on, _make_request self on = inl (Exception message)) \/
    (exists channel, slot (_get_method self channel) = None).
Proof.
  induction attempts as [|attempt rest IH]; intros s; [discriminate|].
  cbn [loop]. iteration_cases self s; cbn [fst]; intros H;
    try discriminate; try (now apply (IH _ H)).
  - left. injection H as ->. eauto.
  - right. eauto.
Qed.

End MixedRuns.

(** X10.  Executing a topic update, whatever its fields, the network and
    the budget: every round trip goes through [topic.updateTopic] on the
    node the client started on or on a node of its list, and the no-method
    exception is never raised. *)
Theorem topic_update_goes_through_updateTopic
        (BaseBody : Type) (build_base : string + BaseBody)
        (tx : TopicUpdateTransaction.t)
        (node : option AccountId) (c : Client)
        (n : @Network (TransactionBody BaseBody) TransactionResponse) :
  let final :=
    _execute (transaction_executable
                (TopicUpdateTransaction.build_transaction_body build_base tx)
                TopicUpdateTransaction._get_method) node c (fresh n) in
  (forall stub,
      In stub (called (trace (world (snd final)))) ->
      rpc stub = "topic.updateTopic"%string /\ In (target stub) (candidates c)) /\
  (forall message, fst final <> inl (Exception message)).
Proof.
  intros final. subst final.
  set (self := transaction_executable
                 (TopicUpdateTransaction.build_transaction_body build_base tx)
                 TopicUpdateTransaction._get_method).
  split.
  - intros stub Hin.
    destruct (among_candidates_execute self node c n) as (_ & _ & _ & Hc).
    destruct (Hc stub Hin) as (on & Hon & Hslot).
    cbn in Hslot. injection Hslot as <-. split; [reflexivity|exact Hon].
  - intros message H. unfold _execute in H.
    destruct (loop_plain_exception self _ _ H)
      as [[on Hreq]|[channel Hslot]].
    + cbn in Hreq.
      destruct (TopicUpdateTransaction.build_transaction_body build_base tx);
        discriminate.
    + discriminate.
Qed.


(** ** The further theorems at work on the setting of the test-suite *)



Lemma every_wait_is_bounded_witness :
  Forall (fun d => (250 <= d <= 1198)%Z)
         (sleeps (trace (world (snd
            (run (set_backoff (topic_update_executable a_topic_update) 250 600)
                 (client_on [node3; node4] 4)
                 [busy_response; unavailable; busy_response; busy_response]))))).
Proof.
  refine (@every_wait_is_bounded _ _ _ _
            (set_backoff (topic_update_executable a_topic_update) 250 600)
            None (client_on [node3; node4] 4) _ _).
  simpl. lia.
Defined.

Lemma client_stays_among_candidates_witness :
  let final := snd (run (topic_update_executable a_topic_update)
                        (client_on [node3; node4; node5] 3)
                        [unavailable; unavailable; ok_response]) in
  In (node_account_id (client final)) [node3; node3; node4; node5] /\
  forall stub,
    In stub (called (trace (world final))) ->
    exists on, In on [node3; node3; node4; node5] /\
               Some (update_topic_on on) = Some stub.
Proof.
  intros final.
  destruct (client_stays_among_candidates
              (topic_update_executable a_topic_update) None
              (client_on [node3; node4; node5] 3)
              (scripted [unavailable; unavailable; ok_response] unavailable))
    as (_ & _ & Hn & Hc).
  split; [exact Hn|exact Hc].
Defined.

Lemma all_transport_failures_exhaust_witness :
  let final := run (topic_update_executable a_topic_update)
                   (client_on [node3; node4; node5] 2)
                   [unavailable; unavailable] in
  fst final =
    inl (MaxAttemptsError
           "Exceeded maximum attempts for request" node5
           (Some (inr "Status: StatusCode.UNAVAILABLE, Details: Test error"%string))) /\
  dispatches (trace (world (snd final))) = 2%nat /\
  sleeps (trace (world (snd final))) = [].
Proof.
  intros final.
  refine (@all_transport_failures_exhaust _ _ _ _
            (topic_update_executable a_topic_update) None
            (client_on [node3; node4; node5] 2)
            (scripted [unavailable; unavailable] unavailable) 1%nat node3
            (fun _ => "StatusCode.UNAVAILABLE"%string)
            (fun _ => "Test error"%string) _ _ eq_refl eq_refl _).
  - intros on. eexists. reflexivity.
  - intros ch. eexists. reflexivity.
  - intros [|[|k]] stub proto_request Hk; [reflexivity|reflexivity|lia].
Defined.

Lemma empty_node_list_breaks_failover_witness :
  let self := topic_update_executable a_topic_update in
  let s := starting self (client_on [] 3) [unavailable; ok_response] in
  exists s',
    loop self [0; 1; 2]%nat s = (inl ZeroDivisionError, s') /\
    trace (world s') = trace (world s) ++ [Dispatch (update_topic_on node3)] /\
    client s' = client s.
Proof.
  intros self s.
  refine (@empty_node_list_breaks_failover _ _ _ _ self 0%nat [1; 2]%nat s _
            (update_topic_on node3) "StatusCode.UNAVAILABLE" "Test error"
            eq_refl eq_refl eq_refl eq_refl).
Defined.

Lemma missing_method_is_not_retried_witness :
  let self := transaction_executable
                (TopicUpdateTransaction.build_transaction_body (inr tt) a_topic_update)
                (fun _ => {| query := None; transaction := None |}) in
  let s := starting self (client_on [node3; node4] 3) [ok_response] in
  exists s',
    loop self [0; 1; 2]%nat s = (inl (Exception "No method to execute"), s') /\
    world s' = world s /\
    client s' = client s.
Proof.
  intros self s.
  refine (@missing_method_is_not_retried _ _ _ _ self 0%nat [1; 2]%nat s _
            eq_refl eq_refl eq_refl).
Defined.


Lemma topic_update_goes_through_updateTopic_witness :
  let final := run (topic_update_executable a_topic_update)
                   (client_on [node3; node4] 3)
                   [unavailable; busy_response; ok_response] in
  (forall stub,
      In stub (called (trace (world (snd final)))) ->
      rpc stub = "topic.updateTopic"%string /\
      In (target stub) [node3; node3; node4]) /\
  (forall message, fst final <> inl (Exception message)).
Proof.
  intros final.
  exact (@topic_update_goes_through_updateTopic unit (inr tt) a_topic_update None
           (client_on [node3; node4] 3)
           (scripted [unavailable; busy_response; ok_response] unavailable)).
Defined.

Lemma non_positive_budget_never_dispatches_witness :
  fst (run (topic_update_executable a_topic_update)
           (client_on [node3; node4] (-1)) [ok_response])
    = inl (MaxAttemptsError "Exceeded maximum attempts for request" node3 None) /\
  trace (world (snd (run (topic_update_executable a_topic_update)
                         (client_on [node3; node4] (-1)) [ok_response]))) = [].
Proof.
  destruct (@non_positive_budget_never_dispatches _ _ _ _
              (topic_update_executable a_topic_update) None
              (client_on [node3; node4] (-1))
              (fresh (scripted [ok_response] unavailable)))
    as (Hr & Hw & _).
  - simpl. lia.
  - split; [exact Hr|]. unfold run. now rewrite Hw.
Defined.

(** ** What the result of an execution tells *)

Section Results.

Context {Request Response StatusError Result : Type}.
Variable self : @_Executable Request Response StatusError Result.

Lemma loop_returned (result : Result) :
  forall (attempts : list nat) (s : @Frame Request Response StatusError),
    fst (loop self attempts s) = inr result ->
    let final := snd (loop self attempts s) in
    exists before stub proto_request response,
      trace (world final) = before ++ [Dispatch stub] /\
      _make_request self (Some (node_account_id (client final))) = inr proto_request /\
      slot (_get_method self (mk_Channel (channel (client final)))) = Some stub /\
      net (world final) (dispatches before) stub proto_request = Reply response /\
      _should_retry self response = FINISHED /\
      result = _map_response self response (node_account_id (client final))
                             proto_request.
Proof.
  induction attempts as [|attempt rest IH]; intros s; [discriminate|].
  cbn [loop]. iteration_cases self s; cbn [fst snd]; intros H;
    try discriminate; try (now apply (IH _ H)).
  frame_fields. injection H as <-.
  exists (trace (world s)), stub, proto_request, response. repeat split; assumption.
Qed.

(** X15.  A result is returned only for a response classified FINISHED: it
    is the mapping of the response received in the last round trip, for the
    node the client is on and the request built for it, and that round trip
    is the last thing the engine did (it never waits after a success). *)
Theorem a_result_comes_from_a_finished_response
        (node : option AccountId) (c : Client) (n : @Network Request Response)
        (result : Result) :
  fst (_execute self node c (fresh n)) = inr result ->
  let final := snd (_execute self node c (fresh n)) in
  exists before stub proto_request response,
    trace (world final) = before ++ [Dispatch stub] /\
    _make_request self (Some (node_account_id (client final))) = inr proto_request /\
    slot (_get_method self (mk_Channel (channel (client final)))) = Some stub /\
    net (world final) (dispatches before) stub proto_request = Reply response /\
    _should_retry self response = FINISHED /\
    result = _map_response self response (node_account_id (client final))
                           proto_request.
Proof.
  unfold _execute. apply loop_returned.
Qed.

Lemma loop_exhausted (message : string) (on : AccountId)
      (last_error : option (@LastError StatusError)) :
  only_validation_errors self ->
  forall (attempts : list nat) (s : @Frame Request Response StatusError),
    fst (loop self attempts s) = inl (MaxAttemptsError message on last_error) ->
    let final := snd (loop self attempts s) in
    dispatches (trace (world final))
      = (dispatches (trace (world s)) + List.length attempts)%nat /\
    on = node_account_id (client final) /\
    (attempts <> [] \/ err_persistant s <> None -> last_error <> None).
Proof.
  intros Hv. induction attempts as [|attempt rest IH]; intros s.
  - cbn. intros H. injection H as _ <- <-.
    split; [now rewrite Nat.add_0_r|]. split; [reflexivity|].
    intros [H|H]; congruence.
  - cbn [loop]. iteration_cases self s; cbn [fst snd]; intros H;
      try discriminate.
    + destruct (Hv _ _ Hreq) as [m ->]. discriminate.
    + destruct (IH _ H) as (Hd & Hn & Hl). revert Hd Hl. frame_fields.
      rewrite dispatches_snoc_dispatch. intros Hd Hl. cbn [List.length].
      split; [eapply eq_trans; [exact Hd|lia]|].
      split; [exact Hn|]. intros _. apply Hl. right. discriminate.
    + destruct (IH _ H) as (Hd & Hn & Hl). revert Hd Hl. frame_fields.
      rewrite dispatches_snoc_sleep, dispatches_snoc_dispatch. intros Hd Hl.
      cbn [List.length].
      split; [eapply eq_trans; [exact Hd|lia]|].
      split; [exact Hn|]. intros _. apply Hl. right. discriminate.
Qed.

(** X16.  The engine never gives up early: for an operation whose builder
    raises only validation errors, the attempts-exhausted error is raised
    only after exactly as many round trips as the budget allows; it names the
    node the client is left on, and with a budget of at least one it always
    carries a last error. *)
Theorem exhaustion_means_the_budget_was_spent
        (node : option AccountId) (c : Client) (n : @Network Request Response)
        (message : string) (on : AccountId)
        (last_error : option (@LastError StatusError)) :
  only_validation_errors self ->
  fst (_execute self node c (fresh n))
    = inl (MaxAttemptsError message on last_error) ->
  dispatches (trace (world (snd (_execute self node c (fresh n)))))
    = Z.to_nat (max_attempts c) /\
  on = node_account_id (client (snd (_execute self node c (fresh n)))) /\
  ((1 <= max_attempts c)%Z -> last_error <> None).
Proof.
  intros Hv H. unfold _execute in *.
  destruct (loop_exhausted Hv _ _ H) as (Hd & Hn & Hl).
  unfold range in *. rewrite length_seq in Hd. cbn in Hd.
  split; [exact Hd|]. split; [exact Hn|].
  intros H1. apply Hl. left.
  destruct (Z.to_nat (max_attempts c)) eqn:E; [lia|discriminate].
Qed.

Lemma loop_status_raised (status_error : StatusError) :
  only_validation_errors self ->
  forall (attempts : list nat) (s : @Frame Request Response StatusError),
    fst (loop self attempts s) = inl (StatusRaised status_error) ->
    let final := snd (loop self attempts s) in
    exists before stub proto_request response,
      trace (world final) = before ++ [Dispatch stub] /\
      net (world final) (dispatches before) stub proto_request = Reply response /\
      (_should_retry self response = ERROR \/ _should_retry self response = EXPIRED) /\
      status_error = _map_status_error self response.
Proof.
  intros Hv. induction attempts as [|attempt rest IH]; intros s; [discriminate|].
  cbn [loop]. iteration_cases self s; cbn [fst snd]; intros H;
    try discriminate; try (now apply (IH _ H)).
  - destruct (Hv _ _ Hreq) as [m ->]. discriminate.
  - frame_fields. injection H as <-.
    exists (trace (world s)), stub, proto_request, response. repeat split; auto.
  - frame_fields. injection H as <-.
    exists (trace (world s)), stub, proto_request, response. repeat split; auto.
Qed.

(** X17.  For an operation whose builder raises only validation errors, a
    status error leaves the engine only as the mapping of a response that was
    classified ERROR or EXPIRED, received in the last round trip made; a
    response classified RETRY is never raised as such. *)
Theorem a_status_error_comes_from_a_terminal_response
        (node : option AccountId) (c : Client) (n : @Network Request Response)
        (status_error : StatusError) :
  only_validation_errors self ->
  fst (_execute self node c (fresh n)) = inl (StatusRaised status_error) ->
  let final := snd (_execute self node c (fresh n)) in
  exists before stub proto_request response,
    trace (world final) = before ++ [Dispatch stub] /\
    net (world final) (dispatches before) stub proto_request = Reply response /\
    (_should_retry self response = ERROR \/ _should_retry self response = EXPIRED) /\
    status_error = _map_status_error self response.
Proof.
  intros Hv. unfold _execute. apply (loop_status_raised Hv).
Qed.

End Results.

Lemma a_result_comes_from_a_finished_response_witness :
  let self := topic_update_executable a_topic_update in
  let final := snd (run self (client_on [node3; node4] 3)
                        [busy_response; ok_response]) in
  exists before stub proto_request response,
    trace (world final) = before ++ [Dispatch stub] /\
    _make_request self (Some (node_account_id (client final))) = inr proto_request /\
    slot (_get_method self (mk_Channel (channel (client final)))) = Some stub /\
    net (world final) (dispatches before) stub proto_request = Reply response /\
    _should_retry self response = FINISHED /\
    mkSubmitted node3 OK
      = _map_response self response (node_account_id (client final)) proto_request.
Proof.
  intros self final.
  exact (@a_result_comes_from_a_finished_response _ _ _ _ self None
           (client_on [node3; node4] 3)
           (scripted [busy_response; ok_response] unavailable)
           (mkSubmitted node3 OK) eq_refl).
Defined.

Lemma exhaustion_means_the_budget_was_spent_witness :
  let self := topic_update_executable a_topic_update in
  let final := run self (client_on [node3; node4] 2)
                   [busy_response; unavailable] in
  dispatches (trace (world (snd final))) = 2%nat /\
  node3 = node_account_id (client (snd final)) /\
  ((1 <= 2)%Z ->
   Some (inr "Status: StatusCode.UNAVAILABLE, Details: Test error"%string)
     <> (None : option (PrecheckError + string))).
Proof.
  intros self final.
  refine (@exhaustion_means_the_budget_was_spent _ _ _ _ self None
            (client_on [node3; node4] 2)
            (scripted [busy_response; unavailable] unavailable)
            "Exceeded maximum attempts for request" node3
            (Some (inr "Status: StatusCode.UNAVAILABLE, Details: Test error"%string))
            _ eq_refl).
  intros on e H. discriminate H.
Defined.

Lemma a_status_error_comes_from_a_terminal_response_witness :
  let self := topic_update_executable a_topic_update in
  let final := snd (run self (client_on [node3; node4] 3)
                        [busy_response; invalid_body_response; ok_response]) in
  exists before stub proto_request response,
    trace (world final) = before ++ [Dispatch stub] /\
    net (world final) (dispatches before) stub proto_request = Reply response /\
    (_should_retry self response = ERROR \/ _should_retry self response = EXPIRED) /\
    mkPrecheckError INVALID_TRANSACTION_BODY = _map_status_error self response.
Proof.
  intros self final.
  refine (@a_status_error_comes_from_a_terminal_response _ _ _ _ self None
            (client_on [node3; node4] 3)
            (scripted [busy_response; invalid_body_response; ok_response] unavailable)
            (mkPrecheckError INVALID_TRANSACTION_BODY) _ eq_refl).
  intros on e H. discriminate H.
Defined.

(** ** Failover from the first attempt *)

Section FailoverFromTheStart.

Context {Request Response StatusError Result : Type}.
Variable self : @_Executable Request Response StatusError Result.

(** X18.  When the first [M] attempts of an execution (M at least one, at
    most the budget) all end in a transport failure, the engine has made [M]
    round trips and no wait, and goes on with attempt [M] on the node at
    position [M mod len] of the node list, wherever in the list the client
    started. *)
Theorem failover_run_from_the_start
        (node : option AccountId) (c : Client)
        (n : @Network Request Response) (M : nat) (first : AccountId) :
  builds self -> resolves self ->
  hd_error (node_account_ids c) = Some first ->
  (1 <= M <= Z.to_nat (max_attempts c))%nat ->
  (forall k stub proto_request,
      (k < M)%nat ->
      exists code details, n k stub proto_request = RpcError code details) ->
  exists s',
    _execute self node c (fresh n) =
      loop self (seq M (Z.to_nat (max_attempts c) - M)) s' /\
    node_account_id (client s') =
      nth (M mod List.length (node_account_ids c)) (node_account_ids c) first /\
    dispatches (trace (world s')) = M /\
    sleeps (trace (world s')) = [].
Proof.
  intros Hb Hr Hfirst HM Hnet. unfold _execute, range.
  assert (Hsplit : seq 0 (Z.to_nat (max_attempts c)) =
                   seq 0 M ++ seq M (Z.to_nat (max_attempts c) - M)).
  { change M with (0 + M)%nat at 2.
    rewrite <- (seq_app M (Z.to_nat (max_attempts c) - M) 0).
    f_equal. lia. }
  rewrite Hsplit.
  match goal with |- context [loop self _ ?f] => set (s0 := f) end.
  destruct (@transport_failures_switch _ _ _ _ self first M 0
              (seq M (Z.to_nat (max_attempts c) - M)) s0 Hb Hr Hfirst)
    as (s' & Hl & Hd & Hs & _ & _ & Hnode).
  { intros k stub proto_request Hk. apply Hnet. subst s0. cbn in Hk. lia. }
  exists s'. split; [exact Hl|]. split; [|split; [exact Hd|exact Hs]].
  rewrite Hnode. destruct M as [|M']; [lia|]. reflexivity.
Qed.

End FailoverFromTheStart.

Lemma failover_run_from_the_start_witness :
  let self := topic_update_executable a_topic_update in
  exists s',
    run self (client_on [node3; node4; node5] 3)
        [unavailable; unavailable; ok_response]
      = loop self [2%nat] s' /\
    node_account_id (client s') = node5 /\
    dispatches (trace (world s')) = 2%nat /\
    sleeps (trace (world s')) = [].
Proof.
  intros self.
  refine (@failover_run_from_the_start _ _ _ _ self None
            (client_on [node3; node4; node5] 3)
            (scripted [unavailable; unavailable; ok_response] unavailable)
            2%nat node3 _ _ eq_refl _ _).
  - intros on. eexists. reflexivity.
  - intros ch. eexists. reflexivity.
  - simpl. lia.
  - intros [|[|k]] stub proto_request Hk;
      [do 2 eexists; reflexivity|do 2 eexists; reflexivity|lia].
Defined.

(** ** A wait that cannot be made *)

Section NegativeBackoff.

Context {Request Response StatusError Result : Type}.
Variable self : @_Executable Request Response StatusError Result.



End NegativeBackoff.


Lemma every_wait_follows_a_retry_witness :
  let self := topic_update_executable a_topic_update in
  let n := scripted [unavailable; busy_response; ok_response] unavailable in
  let final := snd (_execute self None (client_on [node3; node4] 3) (fresh n)) in
  trace (world final) =
    [Dispatch (update_topic_on node3); Dispatch (update_topic_on node4)]
      ++ Sleep 500 :: [Dispatch (update_topic_on node4)] /\
  exists earlier stub proto_request response,
    [Dispatch (update_topic_on node3); Dispatch (update_topic_on node4)]
      = earlier ++ [Dispatch stub] /\
    n (dispatches earlier) stub proto_request = Reply response /\
    _should_retry self response = RETRY.
Proof.
  intros self n final.
  assert (E : trace (world final) =
              [Dispatch (update_topic_on node3); Dispatch (update_topic_on node4)]
                ++ Sleep 500 :: [Dispatch (update_topic_on node4)])
    by reflexivity.
  split; [exact E|].
  exact (proj1 (every_wait_follows_a_retry self None
                  (client_on [node3; node4] 3) n) _ _ _ E).
Defined.
